(** * KEF wireless speakers: the media-player entity of
      [custom_components/kef/media_player.py]

    The entity [KefMediaPlayer] caches four attributes of a speaker
    ([_state], [_muted], [_source], [_volume]) and talks to the device
    through an [AsyncKefSpeaker].  The class [AsyncKefSpeaker] and the table
    [INPUT_SOURCES] live in [custom_components/kef/async_kef_api.py], which
    is not among the sources at hand: the methods of the speaker are taken
    as an interface ([AsyncKefApi]) and the theorems hold for every
    implementation of it.

    Python's coroutines are embedded as computations in a state-and-exception
    monad: a method reads and writes [self], the world behind the speaker and
    a log of the speaker calls made so far; an exception leaves the state as
    it was when it was raised.  Each method is run on its own, without other
    tasks scheduled at its [await]s. *)

From Stdlib Require Import PrimFloat Ascii.
From stdpp Require Import gmap strings list fin_maps pretty.

Set Warnings "-inexact-float".

(** ** Python values and exceptions *)

(** Exceptions, by their place in Python's hierarchy: [except Exception]
    catches the first two kinds and lets the third through. *)
Inductive exn : Type :=
| ValueError (msg : string)
    (* the built-in [ValueError] *)
| ExceptionSubclass (cls msg : string)
    (* any other class deriving from [Exception]: ConnectionRefusedError,
       asyncio.TimeoutError, ... *)
| BaseExceptionOnly (cls msg : string).
    (* a class deriving from [BaseException] and not from [Exception]:
       KeyboardInterrupt, SystemExit, GeneratorExit, and from Python 3.8 on
       asyncio.CancelledError *)

(** [isinstance(e, Exception)] *)
Definition isinstance_Exception (e : exn) : bool :=
  match e with
  | ValueError _ | ExceptionSubclass _ _ => true
  | BaseExceptionOnly _ _ => false
  end.

(** What a call does: it returns a value or raises. *)
Inductive outcome (A : Type) : Type :=
| Returns (a : A)
| Raises (e : exn).
Arguments Returns {A} a.
Arguments Raises {A} e.

(** [homeassistant.const] *)
Definition STATE_ON : string := "on".
Definition STATE_OFF : string := "off".

(** Python's [min(a, b)] on two floats: the first argument unless the second
    is strictly smaller. *)
Definition py_min (a b : float) : float :=
  if (b <? a)%float then b else a.

(** [lo <= v <= hi] on floats. *)
Definition float_between (lo hi v : float) : bool :=
  (lo <=? v)%float && (v <=? hi)%float.

(** [x in l] for a list of strings. *)
Definition py_in (x : string) (l : list string) : bool :=
  existsb (String.eqb x) l.

(** ** Module constants *)

Definition DEFAULT_NAME : string := "KEF".
Definition DEFAULT_PORT : Z := 50001.
Definition DEFAULT_MAX_VOLUME : float := 0.5%float.
Definition DEFAULT_VOLUME_STEP : float := 0.05%float.
Definition DATA_KEF : string := "kef".
Definition SCAN_INTERVAL : Z := 15.

(** ** The speaker client *)

(** An [AsyncKefSpeaker] object, as the entity builds it:
    [AsyncKefSpeaker(host, port, volume_step, maximum_volume, ioloop=...)]. *)
Record AsyncKefSpeaker : Type := {
  host : string;
  port : Z;
  volume_step : float;
  maximum_volume : float
}.

(** The speaker calls the entity makes, for the log. *)
Inductive call : Type :=
| Call_is_online
| Call_is_muted
| Call_get_volume
| Call_get_source_and_state
| Call_turn_on
| Call_turn_off
| Call_increase_volume
| Call_decrease_volume
| Call_set_volume (volume : float)
| Call_mute
| Call_unmute
| Call_set_source (source : string).

(** The methods of [AsyncKefSpeaker] the entity awaits.  [D] is all that
    lies behind the client (connection, device registers, network); a method
    takes the speaker object and the current [D], and gives an outcome and
    the next [D]. *)
Class AsyncKefApi (D : Type) : Type := {
  is_online : AsyncKefSpeaker -> D -> outcome bool * D;
  is_muted : AsyncKefSpeaker -> D -> outcome bool * D;
  get_volume : AsyncKefSpeaker -> D -> outcome float * D;
  get_source_and_state : AsyncKefSpeaker -> D -> outcome (string * bool) * D;
  turn_on : AsyncKefSpeaker -> D -> outcome unit * D;
  turn_off : AsyncKefSpeaker -> D -> outcome unit * D;
  increase_volume : AsyncKefSpeaker -> D -> outcome float * D;
  decrease_volume : AsyncKefSpeaker -> D -> outcome float * D;
  set_volume : AsyncKefSpeaker -> float -> D -> outcome unit * D;
  mute : AsyncKefSpeaker -> D -> outcome unit * D;
  unmute : AsyncKefSpeaker -> D -> outcome unit * D;
  set_source : AsyncKefSpeaker -> string -> D -> outcome unit * D
}.

(** ** The entity *)

(** The attributes [__init__] sets ([_hass] is only used there, for the
    event loop handed to the speaker). *)
Record KefMediaPlayer : Type := {
  _name : string;
  _sources : list string;
  _speaker : AsyncKefSpeaker;
  _state : option string;
  _muted : option bool;
  _source : option string;
  _volume : option float
}.

(** [KefMediaPlayer.__init__] *)
Definition KefMediaPlayer_init (name host_ : string) (port_ : Z)
    (maximum_volume_ volume_step_ : float) (sources : list string)
  : KefMediaPlayer :=
  {| _name := name;
     _sources := sources;
     _speaker := {| host := host_; port := port_;
                    volume_step := volume_step_;
                    maximum_volume := maximum_volume_ |};
     _state := None;
     _muted := None;
     _source := None;
     _volume := None |}.

(** The properties. *)
Definition name (self : KefMediaPlayer) : string := _name self.
Definition state (self : KefMediaPlayer) : option string := _state self.
Definition volume_level (self : KefMediaPlayer) : option float := _volume self.
Definition is_volume_muted (self : KefMediaPlayer) : option bool := _muted self.
Definition source (self : KefMediaPlayer) : option string := _source self.
Definition source_list (self : KefMediaPlayer) : list string := _sources self.

(** Attribute assignment. *)
Definition with_state (x : option string) (self : KefMediaPlayer) :=
  {| _name := _name self; _sources := _sources self; _speaker := _speaker self;
     _state := x; _muted := _muted self; _source := _source self;
     _volume := _volume self |}.
Definition with_muted (x : option bool) (self : KefMediaPlayer) :=
  {| _name := _name self; _sources := _sources self; _speaker := _speaker self;
     _state := _state self; _muted := x; _source := _source self;
     _volume := _volume self |}.
Definition with_source (x : option string) (self : KefMediaPlayer) :=
  {| _name := _name self; _sources := _sources self; _speaker := _speaker self;
     _state := _state self; _muted := _muted self; _source := x;
     _volume := _volume self |}.
Definition with_volume (x : option float) (self : KefMediaPlayer) :=
  {| _name := _name self; _sources := _sources self; _speaker := _speaker self;
     _state := _state self; _muted := _muted self; _source := _source self;
     _volume := x |}.

(** ** The monad of the methods *)

Section Methods.
Context {D : Type} `{api : AsyncKefApi D}.

(** What a method sees and changes. *)
Record world : Type := {
  self : KefMediaPlayer;
  device : D;
  calls : list call
}.

Definition M (A : Type) : Type := world -> outcome A * world.

Definition ret {A} (a : A) : M A := fun w => (Returns a, w).

Definition raise {A} (e : exn) : M A := fun w => (Raises e, w).

Definition bind {A B} (m : M A) (k : A -> M B) : M B :=
  fun w =>
    match m w with
    | (Returns a, w') => k a w'
    | (Raises e, w') => (Raises e, w')
    end.

(** [self.attr = x] *)
Definition assign (f : KefMediaPlayer -> KefMediaPlayer) : M unit :=
  fun w => (Returns tt,
            {| self := f (self w); device := device w; calls := calls w |}).

(** [await self._speaker.method(...)]: the call is logged, then made. *)
Definition await {A} (c : call)
    (method : AsyncKefSpeaker -> D -> outcome A * D) : M A :=
  fun w =>
    let (r, d) := method (_speaker (self w)) (device w) in
    (r, {| self := self w; device := d; calls := calls w ++ [c] |}).

(** [try: body  except Exception as e: handler(e)] *)
Definition try_except_Exception {A} (body : M A) (handler : exn -> M A) : M A :=
  fun w =>
    match body w with
    | (Returns a, w') => (Returns a, w')
    | (Raises e, w') =>
        if isinstance_Exception e then handler e w' else (Raises e, w')
    end.

Notation "x <- m ;; k" := (bind m (fun x => k))
  (at level 100, m at next level, right associativity).
Notation "m ;;; k" := (bind m (fun _ => k))
  (at level 100, right associativity).

(** [KefMediaPlayer.async_update]; the two [_LOGGER.debug] lines leave no
    trace in the entity. *)
Definition async_update_body : M unit :=
  is_online_ <- await Call_is_online is_online ;;
  if is_online_ : bool then
    muted <- await Call_is_muted is_muted ;;
    assign (with_muted (Some muted)) ;;;
    volume <- await Call_get_volume get_volume ;;
    assign (with_volume (Some volume)) ;;;
    r <- await Call_get_source_and_state get_source_and_state ;;
    assign (with_source (Some (fst r))) ;;;
    assign (with_state (Some (if snd r : bool then STATE_ON else STATE_OFF)))
  else
    assign (with_muted None) ;;;
    assign (with_source None) ;;;
    assign (with_volume None) ;;;
    assign (with_state (Some STATE_OFF)).

Definition async_update : M unit :=
  try_except_Exception async_update_body (fun e => ret tt).

(** [KefMediaPlayer.async_turn_off] *)
Definition async_turn_off : M unit :=
  await Call_turn_off turn_off ;;;
  assign (with_state (Some STATE_ON)).

(** [KefMediaPlayer.async_turn_on] *)
Definition async_turn_on : M unit :=
  await Call_turn_on turn_on ;;;
  assign (with_state (Some STATE_OFF)).

(** [KefMediaPlayer.async_volume_up] *)
Definition async_volume_up : M unit :=
  volume <- await Call_increase_volume increase_volume ;;
  assign (with_volume (Some volume)).

(** [KefMediaPlayer.async_volume_down] *)
Definition async_volume_down : M unit :=
  volume <- await Call_decrease_volume decrease_volume ;;
  assign (with_volume (Some volume)).

(** [KefMediaPlayer.async_set_volume_level] *)
Definition async_set_volume_level (volume : float) : M unit :=
  await (Call_set_volume volume) (fun sp => set_volume sp volume) ;;;
  assign (with_volume (Some volume)).

(** [KefMediaPlayer.async_mute_volume] *)
Definition async_mute_volume (mute_ : bool) : M unit :=
  (if mute_ then await Call_mute mute else await Call_unmute unmute) ;;;
  assign (with_muted (Some mute_)).

(** [KefMediaPlayer.async_select_source] *)
Definition async_select_source (source_ : string) : M unit :=
  fun w =>
    (if py_in source_ (source_list (self w)) then
       assign (with_source (Some source_)) ;;;
       await (Call_set_source source_) (fun sp => set_source sp source_)
     else
       raise (ValueError ("Unknown input source: " +:+ source_ +:+ "."))) w.

End Methods.

Arguments world D : clear implicits.
Arguments M D A : clear implicits.

(** ** Vocabulary for the statements *)

Section Vocabulary.
Context {D : Type} `{api : AsyncKefApi D}.

(** The exception of the first poll call to raise in the update cycle that
    starts in [w], read off the speaker alone: [is_online] first, and, when
    it answers true, [is_muted], [get_volume] and [get_source_and_state],
    each on the world the call before it left. *)
Definition poll_failure (w : world D) : option exn :=
  let sp := _speaker (self w) in
  match is_online sp (device w) with
  | (Raises e, _) => Some e
  | (Returns false, _) => None
  | (Returns true, d1) =>
      match is_muted sp d1 with
      | (Raises e, _) => Some e
      | (Returns _, d2) =>
          match get_volume sp d2 with
          | (Raises e, _) => Some e
          | (Returns _, d3) =>
              match get_source_and_state sp d3 with
              | (Raises e, _) => Some e
              | (Returns _, _) => None
              end
          end
      end
  end.

(** What the [except] clause of [async_update] makes of an exception [e]
    raised in world [w]. *)
Definition handled (e : exn) (w : world D) : outcome unit * world D :=
  if isinstance_Exception e then (Returns tt, w) else (Raises e, w).

End Vocabulary.

(** The degraded state of an entity, in the words of the specification: shown
    as off or unavailable, with volume, mute and source unknown. *)
Definition degraded (e : KefMediaPlayer) : Prop :=
  (state e = Some STATE_OFF \/ state e = None)
  /\ volume_level e = None
  /\ is_volume_muted e = None
  /\ source e = None.

(** Unfolds a method down to the speaker calls it makes. *)
Ltac unfold_method :=
  unfold async_update, async_update_body, async_turn_off, async_turn_on,
    async_volume_up, async_volume_down, async_set_volume_level,
    async_mute_volume, async_select_source, try_except_Exception,
    bind, await, assign, ret, raise in *.

(** Splits a served request into the outcomes of its speaker calls. *)
Ltac split_outcomes :=
  repeat match goal with
    | |- context [is_online ?sp ?d] => destruct (is_online sp d) as [[[|]|?] ?]
    | |- context [is_muted ?sp ?d] => destruct (is_muted sp d) as [[?|?] ?]
    | |- context [get_volume ?sp ?d] => destruct (get_volume sp d) as [[?|?] ?]
    | |- context [get_source_and_state ?sp ?d] =>
        destruct (get_source_and_state sp d) as [[[? ?]|?] ?]
    | |- context [turn_on ?sp ?d] => destruct (turn_on sp d) as [[[]|?] ?]
    | |- context [turn_off ?sp ?d] => destruct (turn_off sp d) as [[[]|?] ?]
    | |- context [increase_volume ?sp ?d] =>
        destruct (increase_volume sp d) as [[?|?] ?]
    | |- context [decrease_volume ?sp ?d] =>
        destruct (decrease_volume sp d) as [[?|?] ?]
    | |- context [set_volume ?sp ?v ?d] =>
        destruct (set_volume sp v d) as [[[]|?] ?]
    | |- context [mute ?sp ?d] => destruct (mute sp d) as [[[]|?] ?]
    | |- context [unmute ?sp ?d] => destruct (unmute sp d) as [[[]|?] ?]
    | |- context [set_source ?sp ?s ?d] =>
        destruct (set_source sp s d) as [[[]|?] ?]
    | |- context [py_in ?s ?l] => destruct (py_in s l) eqn:?
    | |- context [isinstance_Exception ?e] =>
        destruct (isinstance_Exception e) eqn:?
    end; simpl.

(** ** Platform setup *)

(** The platform configuration after [PLATFORM_SCHEMA] has validated it and
    filled in the defaults; a field is named after the key that reads it. *)
Record Config : Type := {
  CONF_HOST : string;
  CONF_PORT : Z;
  CONF_NAME : string;
  CONF_MAX_VOLUME : float;
  CONF_VOLUME_STEP : float
}.

(** What [async_setup_platform] touches of its arguments: the dictionary
    [hass.data] (of which only the entry [DATA_KEF] is this platform's) and
    the entities handed to [async_add_entities], in order. *)
Record HomeAssistant : Type := {
  data : gmap string (gmap string KefMediaPlayer);
  added_entities : list KefMediaPlayer
}.

(** [f"{host}:{port}"] *)
Definition unique_id_of (host_ : string) (port_ : Z) : string :=
  host_ +:+ ":" +:+ pretty port_.

Section Setup.
(** [KEF_LS50_SOURCES = sorted(INPUT_SOURCES.keys())], with [INPUT_SOURCES]
    of [async_kef_api]. *)
Variable KEF_LS50_SOURCES : list string.

(** [async_setup_platform] *)
Definition async_setup_platform (config : Config) (hass : HomeAssistant)
  : HomeAssistant :=
  let hass_data :=
    match data hass !! DATA_KEF with
    | Some _ => data hass
    | None => <[DATA_KEF := ∅]> (data hass)
    end in
  let host_ := CONF_HOST config in
  let port_ := CONF_PORT config in
  let name_ := CONF_NAME config in
  let maximum_volume_ := CONF_MAX_VOLUME config in
  let volume_step_ := CONF_VOLUME_STEP config in
  let media_player :=
    KefMediaPlayer_init name_ host_ port_ maximum_volume_ volume_step_
      KEF_LS50_SOURCES in
  let unique_id := unique_id_of host_ port_ in
  let registry := default ∅ (hass_data !! DATA_KEF) in
  match registry !! unique_id with
  | Some _ => {| data := hass_data; added_entities := added_entities hass |}
  | None =>
      {| data := <[DATA_KEF := <[unique_id := media_player]> registry]> hass_data;
         added_entities := added_entities hass ++ [media_player] |}
  end.

(** The speakers registered under [hass.data[DATA_KEF]]. *)
Definition registry_of (hass : HomeAssistant) : gmap string KefMediaPlayer :=
  default ∅ (data hass !! DATA_KEF).

(** The key an entity is registered under: [host:port] of its speaker. *)
Definition entity_id (e : KefMediaPlayer) : string :=
  unique_id_of (host (_speaker e)) (port (_speaker e)).

(** Every entity handed over is in the registry under its own key, and no
    two of them share a key. *)
Definition registry_consistent (h : HomeAssistant) : Prop :=
  NoDup (entity_id <$> added_entities h)
  /\ forall e, e ∈ added_entities h -> is_Some (registry_of h !! entity_id e).

(** Several platform setups, one after the other. *)
Definition setup_all (configs : list Config) (hass : HomeAssistant)
  : HomeAssistant :=
  foldl (fun h c => async_setup_platform c h) hass configs.
End Setup.

(** ** A scripted speaker, for running the entity on concrete inputs *)

(** What each kind of call answers. *)
Record Script : Type := {
  on_is_online : outcome bool;
  on_is_muted : outcome bool;
  on_get_volume : outcome float;
  on_get_source_and_state : outcome (string * bool);
  on_step : outcome float;
  on_command : outcome unit
}.

#[export] Instance ScriptedSpeaker : AsyncKefApi Script := {|
  is_online _ d := (on_is_online d, d);
  is_muted _ d := (on_is_muted d, d);
  get_volume _ d := (on_get_volume d, d);
  get_source_and_state _ d := (on_get_source_and_state d, d);
  turn_on _ d := (on_command d, d);
  turn_off _ d := (on_command d, d);
  increase_volume _ d := (on_step d, d);
  decrease_volume _ d := (on_step d, d);
  set_volume _ _ d := (on_command d, d);
  mute _ d := (on_command d, d);
  unmute _ d := (on_command d, d);
  set_source _ _ d := (on_command d, d)
|}.

Definition connection_refused : exn :=
  ExceptionSubclass "ConnectionRefusedError" "[Errno 111] Connection refused".

Definition keyboard_interrupt : exn :=
  BaseExceptionOnly "KeyboardInterrupt" "".

Definition cancelled : exn :=
  BaseExceptionOnly "CancelledError" "".

(** A speaker that answers every call. *)
Definition healthy : Script :=
  {| on_is_online := Returns true;
     on_is_muted := Returns false;
     on_get_volume := Returns 0.25%float;
     on_get_source_and_state := Returns ("Opt", false);
     on_step := Returns 0.3%float;
     on_command := Returns tt |}.

(** A speaker that answers the polls and refuses the commands. *)
Definition refusing : Script :=
  {| on_is_online := Returns true;
     on_is_muted := Returns false;
     on_get_volume := Returns 0.25%float;
     on_get_source_and_state := Returns ("Opt", false);
     on_step := Raises connection_refused;
     on_command := Raises connection_refused |}.

(** A speaker whose every call fails with [e]. *)
Definition failing (e : exn) : Script :=
  {| on_is_online := Raises e;
     on_is_muted := Raises e;
     on_get_volume := Raises e;
     on_get_source_and_state := Raises e;
     on_step := Raises e;
     on_command := Raises e |}.

(** A speaker that is not reachable: [is_online] answers false. *)
Definition offline : Script :=
  {| on_is_online := Returns false;
     on_is_muted := Raises connection_refused;
     on_get_volume := Raises connection_refused;
     on_get_source_and_state := Raises connection_refused;
     on_step := Raises connection_refused;
     on_command := Raises connection_refused |}.

Definition sample_sources : list string :=
  ["Aux"; "Bluetooth"; "Opt"; "Usb"; "Wifi"].

(** An entity with the default configuration, playing from Wifi at 0.3. *)
Definition playing : KefMediaPlayer :=
  {| _name := DEFAULT_NAME;
     _sources := sample_sources;
     _speaker := {| host := "192.168.1.20"; port := DEFAULT_PORT;
                    volume_step := DEFAULT_VOLUME_STEP;
                    maximum_volume := DEFAULT_MAX_VOLUME |};
     _state := Some STATE_ON;
     _muted := Some false;
     _source := Some "Wifi";
     _volume := Some 0.3%float |}.

(** The same entity, shown as off. *)
Definition standby : KefMediaPlayer := with_state (Some STATE_OFF) playing.

Definition world_of (e : KefMediaPlayer) (d : Script) : world Script :=
  {| self := e; device := d; calls := [] |}.

Definition sample_config : Config :=
  {| CONF_HOST := "192.168.1.20"; CONF_PORT := DEFAULT_PORT;
     CONF_NAME := DEFAULT_NAME; CONF_MAX_VOLUME := DEFAULT_MAX_VOLUME;
     CONF_VOLUME_STEP := DEFAULT_VOLUME_STEP |}.

Definition empty_hass : HomeAssistant :=
  {| data := ∅; added_entities := [] |}.

(** A second configuration, for another speaker. *)
Definition other_config : Config :=
  {| CONF_HOST := "192.168.1.21"; CONF_PORT := DEFAULT_PORT;
     CONF_NAME := "KEF kitchen"; CONF_MAX_VOLUME := 0.8%float;
     CONF_VOLUME_STEP := 0.1%float |}.

(** The first speaker again, under another name and other volume settings. *)
Definition renamed_config : Config :=
  {| CONF_HOST := "192.168.1.20"; CONF_PORT := DEFAULT_PORT;
     CONF_NAME := "KEF study"; CONF_MAX_VOLUME := 1%float;
     CONF_VOLUME_STEP := 0.1%float |}.

(** The entity of [playing] before its first update. *)
Definition fresh : KefMediaPlayer :=
  KefMediaPlayer_init DEFAULT_NAME "192.168.1.20" DEFAULT_PORT
    DEFAULT_MAX_VOLUME DEFAULT_VOLUME_STEP sample_sources.

(** ** The entity over its lifetime *)

(** The four attributes the entity caches. *)
Definition cache (e : KefMediaPlayer)
  : option string * option bool * option string * option float :=
  (state e, is_volume_muted e, source e, volume_level e).

(** What [__init__] fixes for good: name, source list and speaker. *)
Definition same_identity (e e' : KefMediaPlayer) : Prop :=
  name e' = name e
  /\ source_list e' = source_list e
  /\ _speaker e' = _speaker e.

(** The calls Home Assistant makes on an entity: the scheduled update and
    the six services of [SUPPORT_KEF] (volume step counts for two). *)
Inductive request : Type :=
| Update
| TurnOff
| TurnOn
| VolumeUp
| VolumeDown
| SetVolumeLevel (volume : float)
| MuteVolume (mute_ : bool)
| SelectSource (source_ : string).

Section Lifetime.
Context {D : Type} `{api : AsyncKefApi D}.

(** The method a request runs. *)
Definition serve (r : request) : M D unit :=
  match r with
  | Update => async_update
  | TurnOff => async_turn_off
  | TurnOn => async_turn_on
  | VolumeUp => async_volume_up
  | VolumeDown => async_volume_down
  | SetVolumeLevel volume => async_set_volume_level volume
  | MuteVolume mute_ => async_mute_volume mute_
  | SelectSource source_ => async_select_source source_
  end.

(** Requests served one after the other; an exception ends its own request
    and the next one finds the world as the failed one left it. *)
Definition serve_all (rs : list request) (w : world D) : world D :=
  foldl (fun w r => snd (serve r w)) w rs.

(** The source the speaker reports in the update cycle that starts in [w],
    read off the speaker alone: what [get_source_and_state] returns, when
    [is_online] answers true and [is_muted] and [get_volume] return, each
    call on the world the call before it left. *)
Definition polled_source (w : world D) : option string :=
  let sp := _speaker (self w) in
  match is_online sp (device w) with
  | (Returns true, d1) =>
      match is_muted sp d1 with
      | (Returns _, d2) =>
          match get_volume sp d2 with
          | (Returns _, d3) =>
              match get_source_and_state sp d3 with
              | (Returns (src, _), _) => Some src
              | (Raises _, _) => None
              end
          | (Raises _, _) => None
          end
      | (Raises _, _) => None
      end
  | _ => None
  end.

End Lifetime.

(** ** Keys of the registry *)

(** [c in s] for a character and a string. *)
Fixpoint char_in (c : Ascii.ascii) (s : string) : bool :=
  match s with
  | EmptyString => false
  | String a s' => Ascii.eqb c a || char_in c s'
  end.

(** The registry and the entities handed over tell the same story. *)
Definition registry_matches (h : HomeAssistant) : Prop :=
  (forall k e,
      registry_of h !! k = Some e <-> e ∈ added_entities h /\ entity_id e = k)
  /\ size (registry_of h) = length (added_entities h).

(** The key a configuration is registered under. *)
Definition config_id (c : Config) : string :=
  unique_id_of (CONF_HOST c) (CONF_PORT c).

(** The entity [async_setup_platform] builds from a configuration. *)
Definition configured_entity (sources : list string) (c : Config)
  : KefMediaPlayer :=
  KefMediaPlayer_init (CONF_NAME c) (CONF_HOST c) (CONF_PORT c)
    (CONF_MAX_VOLUME c) (CONF_VOLUME_STEP c) sources.

(** * Properties *)

(** ** Small facts about the Python values *)

Lemma py_in_elem_of (x : string) (l : list string) :
  py_in x l = true <-> x ∈ l.
Proof.
  unfold py_in. induction l as [|y l IH]; simpl.
  - split; [discriminate | intros H; inversion H].
  - rewrite orb_true_iff, IH, String.eqb_eq, elem_of_cons. reflexivity.
Qed.

Lemma py_in_not_elem_of (x : string) (l : list string) :
  x ∉ l -> py_in x l = false.
Proof.
  intros H. destruct (py_in x l) eqn:E; [|reflexivity].
  apply py_in_elem_of in E. contradiction.
Qed.

Lemma py_min_left (a b : float) :
  (b <? a)%float = false -> py_min a b = a.
Proof. unfold py_min. intros ->. reflexivity. Qed.

Lemma float_neq_by_eqb (a b : float) :
  (a =? a)%float = true -> (a =? b)%float = false -> a <> b.
Proof. intros Ha Hab ->. rewrite Ha in Hab. discriminate. Qed.

Lemma STATE_ON_neq_OFF : STATE_ON <> STATE_OFF.
Proof. discriminate. Qed.

(** ** The commands *)

Section Commands.
Context {D : Type} `{api : AsyncKefApi D}.

(** [async_set_volume_level] makes one call, [set_volume(volume)], and
    completes as that call does. *)
Lemma async_set_volume_level_spec (volume : float) (w : world D) :
  async_set_volume_level volume w =
    let (r, d) := set_volume (_speaker (self w)) volume (device w) in
    let log := calls w ++ [Call_set_volume volume] in
    match r with
    | Returns _ =>
        (Returns tt,
         {| self := with_volume (Some volume) (self w); device := d;
            calls := log |})
    | Raises e => (Raises e, {| self := self w; device := d; calls := log |})
    end.
Proof.
  unfold_method. destruct (set_volume _ _ _) as [[[]|e] d]; reflexivity.
Qed.

(** C1, as amended: when [async_set_volume_level(v)] completes, the
    [volume_level] property is [v] itself, the level asked for; the entity
    applies no ceiling of its own.  It is [min(v, maximum_volume)] whenever
    [maximum_volume] is not below [v].  This holds for every float [v], those
    of [0, 1] among them. *)
Theorem set_volume_level_caches_request (v : float) (w : world D) :
  fst (async_set_volume_level v w) = Returns tt ->
  volume_level (self (snd (async_set_volume_level v w))) = Some v
  /\ ((maximum_volume (_speaker (self w)) <? v)%float = false ->
      volume_level (self (snd (async_set_volume_level v w)))
      = Some (py_min v (maximum_volume (_speaker (self w))))).
Proof.
  rewrite async_set_volume_level_spec.
  destruct (set_volume _ _ _) as [[[]|e] d]; simpl; [|discriminate].
  intros _. split; [reflexivity|].
  intros Hmax. rewrite py_min_left by exact Hmax. reflexivity.
Qed.

(** [async_select_source] on a source of the list: the attribute is written
    first, the speaker is called second. *)
Lemma async_select_source_known (s : string) (w : world D) :
  s ∈ source_list (self w) ->
  async_select_source s w =
    let (r, d) := set_source (_speaker (self w)) s (device w) in
    (r, {| self := with_source (Some s) (self w); device := d;
           calls := calls w ++ [Call_set_source s] |}).
Proof.
  intros Hin. apply py_in_elem_of in Hin. unfold_method.
  rewrite Hin. simpl. reflexivity.
Qed.

(** When [set_source] raises, the exception reaches the caller and the
    [source] property already shows the source asked for. *)
Lemma async_select_source_raises (s : string) (w : world D) (e : exn) :
  s ∈ source_list (self w) ->
  fst (set_source (_speaker (self w)) s (device w)) = Raises e ->
  fst (async_select_source s w) = Raises e
  /\ source (self (snd (async_select_source s w))) = Some s.
Proof.
  intros Hin Hraise. rewrite async_select_source_known by exact Hin.
  destruct (set_source _ _ _) as [r d]; simpl in *. auto.
Qed.

(** C3: for a string that is not in the source list, [async_select_source]
    raises the invalid-source error, [ValueError("Unknown input source:
    <s>.")], without calling the speaker and without touching the entity:
    the [source] property is the one it was. *)
Theorem async_select_source_unknown (s : string) (w : world D) :
  s ∉ source_list (self w) ->
  async_select_source s w
  = (Raises (ValueError ("Unknown input source: " +:+ s +:+ ".")), w)
  /\ source (self (snd (async_select_source s w))) = source (self w)
  /\ calls (snd (async_select_source s w)) = calls w.
Proof.
  intros Hout. apply py_in_not_elem_of in Hout.
  assert (E : async_select_source s w
              = (Raises (ValueError ("Unknown input source: " +:+ s +:+ ".")), w)).
  { unfold_method. rewrite Hout. reflexivity. }
  rewrite E. auto.
Qed.

(** C8: [async_mute_volume(m)] leaves the cached volume level, the source,
    the power state (and the name and source list) as they were, whether the
    speaker call succeeds or raises; when it succeeds the muted flag is [m]. *)
Theorem async_mute_volume_frame (m : bool) (w : world D) :
  let w' := snd (async_mute_volume m w) in
  volume_level (self w') = volume_level (self w)
  /\ source (self w') = source (self w)
  /\ state (self w') = state (self w)
  /\ source_list (self w') = source_list (self w)
  /\ name (self w') = name (self w)
  /\ _speaker (self w') = _speaker (self w)
  /\ match fst (async_mute_volume m w) with
     | Returns _ => is_volume_muted (self w') = Some m
     | Raises _ => is_volume_muted (self w') = is_volume_muted (self w)
     end.
Proof.
  unfold_method. destruct m.
  - destruct (mute _ _) as [[[]|e] d]; simpl; auto 10.
  - destruct (unmute _ _) as [[[]|e] d]; simpl; auto 10.
Qed.

(** C9: [async_turn_off] makes one call, [turn_off].  When that call
    returns, the method returns and the state is [STATE_ON], whatever it was
    before; when it raises, the method raises the same exception and the
    entity is as before.  [async_turn_on] does the same with [turn_on] and
    [STATE_OFF].  So a power command that completes without error has
    written the state opposite to the command it sent. *)
Theorem power_commands_write_opposite_state (w : world D) :
  (forall d,
      turn_off (_speaker (self w)) (device w) = (Returns tt, d) ->
      async_turn_off w
      = (Returns tt,
         {| self := with_state (Some STATE_ON) (self w); device := d;
            calls := calls w ++ [Call_turn_off] |}))
  /\ (forall d,
        turn_on (_speaker (self w)) (device w) = (Returns tt, d) ->
        async_turn_on w
        = (Returns tt,
           {| self := with_state (Some STATE_OFF) (self w); device := d;
              calls := calls w ++ [Call_turn_on] |}))
  /\ (forall e d,
        turn_off (_speaker (self w)) (device w) = (Raises e, d) ->
        async_turn_off w
        = (Raises e,
           {| self := self w; device := d;
              calls := calls w ++ [Call_turn_off] |}))
  /\ (forall e d,
        turn_on (_speaker (self w)) (device w) = (Raises e, d) ->
        async_turn_on w
        = (Raises e,
           {| self := self w; device := d;
              calls := calls w ++ [Call_turn_on] |}))
  /\ (fst (async_turn_off w) = Returns tt ->
      state (self (snd (async_turn_off w))) = Some STATE_ON)
  /\ (fst (async_turn_on w) = Returns tt ->
      state (self (snd (async_turn_on w))) = Some STATE_OFF)
  /\ calls (snd (async_turn_off w)) = calls w ++ [Call_turn_off]
  /\ calls (snd (async_turn_on w)) = calls w ++ [Call_turn_on].
Proof.
  unfold_method.
  destruct (turn_off _ _) as [[[]|e1] d1], (turn_on _ _) as [[[]|e2] d2];
    simpl; repeat apply conj; intros; simplify_eq; reflexivity.
Qed.

End Commands.

(** ** The update cycle *)

Section Update.
Context {D : Type} `{api : AsyncKefApi D}.

(** One cycle of [async_update], call by call. *)
Lemma async_update_spec (w : world D) :
  async_update w =
    let sp := _speaker (self w) in
    let log1 := calls w ++ [Call_is_online] in
    let log2 := log1 ++ [Call_is_muted] in
    let log3 := log2 ++ [Call_get_volume] in
    let log4 := log3 ++ [Call_get_source_and_state] in
    match is_online sp (device w) with
    | (Raises e, d1) =>
        handled e {| self := self w; device := d1; calls := log1 |}
    | (Returns false, d1) =>
        (Returns tt,
         {| self := with_state (Some STATE_OFF)
                      (with_volume None (with_source None
                         (with_muted None (self w))));
            device := d1; calls := log1 |})
    | (Returns true, d1) =>
        match is_muted sp d1 with
        | (Raises e, d2) =>
            handled e {| self := self w; device := d2; calls := log2 |}
        | (Returns m, d2) =>
            match get_volume sp d2 with
            | (Raises e, d3) =>
                handled e {| self := with_muted (Some m) (self w);
                             device := d3; calls := log3 |}
            | (Returns v, d3) =>
                match get_source_and_state sp d3 with
                | (Raises e, d4) =>
                    handled e {| self := with_volume (Some v)
                                           (with_muted (Some m) (self w));
                                 device := d4; calls := log4 |}
                | (Returns (src, is_on), d4) =>
                    (Returns tt,
                     {| self := with_state
                                  (Some (if is_on then STATE_ON else STATE_OFF))
                                  (with_source (Some src)
                                     (with_volume (Some v)
                                        (with_muted (Some m) (self w))));
                        device := d4; calls := log4 |})
                end
            end
        end
    end.
Proof.
  unfold_method. unfold handled. simpl.
  destruct (is_online _ _) as [[[|]|e1] d1]; simpl; [| reflexivity | reflexivity].
  destruct (is_muted _ _) as [[m|e2] d2]; simpl; [| reflexivity].
  destruct (get_volume _ _) as [[v|e3] d3]; simpl; [| reflexivity].
  destruct (get_source_and_state _ _) as [[[src is_on]|e4] d4]; simpl; reflexivity.
Qed.

(** C5: when [is_online] answers false, [async_update] returns without an
    exception, the state is [STATE_OFF] and [volume_level],
    [is_volume_muted] and [source] are [None]; no other speaker call is
    made. *)
Theorem async_update_offline (w : world D) :
  fst (is_online (_speaker (self w)) (device w)) = Returns false ->
  fst (async_update w) = Returns tt
  /\ state (self (snd (async_update w))) = Some STATE_OFF
  /\ volume_level (self (snd (async_update w))) = None
  /\ is_volume_muted (self (snd (async_update w))) = None
  /\ source (self (snd (async_update w))) = None
  /\ calls (snd (async_update w)) = calls w ++ [Call_is_online].
Proof.
  intros Hoff. rewrite async_update_spec. simpl.
  destruct (is_online _ _) as [r d1]. simpl in Hoff. subst r. simpl.
  repeat split; reflexivity.
Qed.

(** C6: the calls of one cycle are [is_online] followed by a prefix of
    [is_muted], [get_volume], [get_source_and_state]; that prefix is empty
    unless [is_online] answered true; and when the combined query is reached
    and answers [(src, is_on)], the state is [STATE_ON] or [STATE_OFF] as
    [is_on] says, and the source is [src]. *)
Theorem async_update_call_order (w : world D) :
  (exists rest,
      calls (snd (async_update w)) = calls w ++ Call_is_online :: rest
      /\ rest `prefix_of` [Call_is_muted; Call_get_volume; Call_get_source_and_state]
      /\ (rest <> [] ->
          fst (is_online (_speaker (self w)) (device w)) = Returns true))
  /\ (forall d1 m d2 v d3 src is_on d4,
        is_online (_speaker (self w)) (device w) = (Returns true, d1) ->
        is_muted (_speaker (self w)) d1 = (Returns m, d2) ->
        get_volume (_speaker (self w)) d2 = (Returns v, d3) ->
        get_source_and_state (_speaker (self w)) d3 = (Returns (src, is_on), d4) ->
        fst (async_update w) = Returns tt
        /\ state (self (snd (async_update w)))
           = Some (if is_on then STATE_ON else STATE_OFF)
        /\ source (self (snd (async_update w))) = Some src
        /\ calls (snd (async_update w))
           = calls w ++ [Call_is_online; Call_is_muted; Call_get_volume;
                         Call_get_source_and_state]).
Proof.
  rewrite async_update_spec. simpl. split.
  - destruct (is_online _ _) as [[[|]|e1] d1]; simpl.
    + destruct (is_muted _ _) as [[m|e2] d2]; simpl.
      * destruct (get_volume _ _) as [[v|e3] d3]; simpl.
        -- exists [Call_is_muted; Call_get_volume; Call_get_source_and_state].
           split; [| split; [reflexivity | reflexivity]].
           destruct (get_source_and_state _ _) as [[[src is_on]|e4] d4];
             unfold handled; simpl; try destruct (isinstance_Exception e4);
             simpl; rewrite <- !app_assoc; reflexivity.
        -- exists [Call_is_muted; Call_get_volume].
           split; [| split; [by exists [Call_get_source_and_state] | reflexivity]].
           unfold handled; destruct (isinstance_Exception e3);
             simpl; rewrite <- !app_assoc; reflexivity.
      * exists [Call_is_muted].
        split; [| split; [by exists [Call_get_volume; Call_get_source_and_state]
                         | reflexivity]].
        unfold handled; destruct (isinstance_Exception e2);
          simpl; rewrite <- !app_assoc; reflexivity.
    + exists []. split; [reflexivity | split; [apply prefix_nil | congruence]].
    + exists []. split; [| split; [apply prefix_nil | congruence]].
      unfold handled; destruct (isinstance_Exception e1); reflexivity.
  - intros d1 m d2 v d3 src is_on d4 -> -> -> ->. simpl.
    rewrite <- !app_assoc. repeat split; reflexivity.
Qed.

(** C4, as amended: when a poll call raises an exception deriving from
    [Exception], [async_update] returns normally and resets nothing: the
    entity is as it was when the call failed.  After a failure of
    [is_online] or [is_muted] it is unchanged; after one of [get_volume] only
    the mute flag has been refreshed; after one of [get_source_and_state]
    only the mute flag and the volume.  State and source are those from
    before the cycle. *)
Theorem async_update_failure_keeps_attributes (w : world D) (e : exn) :
  isinstance_Exception e = true ->
  let sp := _speaker (self w) in
  (forall d1,
      is_online sp (device w) = (Raises e, d1) ->
      fst (async_update w) = Returns tt
      /\ self (snd (async_update w)) = self w)
  /\ (forall d1 d2,
        is_online sp (device w) = (Returns true, d1) ->
        is_muted sp d1 = (Raises e, d2) ->
        fst (async_update w) = Returns tt
        /\ self (snd (async_update w)) = self w)
  /\ (forall d1 m d2 d3,
        is_online sp (device w) = (Returns true, d1) ->
        is_muted sp d1 = (Returns m, d2) ->
        get_volume sp d2 = (Raises e, d3) ->
        fst (async_update w) = Returns tt
        /\ self (snd (async_update w)) = with_muted (Some m) (self w))
  /\ (forall d1 m d2 v d3 d4,
        is_online sp (device w) = (Returns true, d1) ->
        is_muted sp d1 = (Returns m, d2) ->
        get_volume sp d2 = (Returns v, d3) ->
        get_source_and_state sp d3 = (Raises e, d4) ->
        fst (async_update w) = Returns tt
        /\ self (snd (async_update w))
           = with_volume (Some v) (with_muted (Some m) (self w)))
  /\ (poll_failure w = Some e ->
      fst (async_update w) = Returns tt
      /\ state (self (snd (async_update w))) = state (self w)
      /\ source (self (snd (async_update w))) = source (self w)).
Proof.
  intros He sp. subst sp. rewrite async_update_spec. simpl.
  repeat apply conj.
  - intros d1 ->. unfold handled. rewrite He. auto.
  - intros d1 d2 -> ->. unfold handled. rewrite He. auto.
  - intros d1 m d2 d3 -> -> ->. unfold handled. rewrite He. auto.
  - intros d1 m d2 v d3 d4 -> -> -> ->. unfold handled. rewrite He. auto.
  - unfold poll_failure, handled.
    destruct (is_online _ _) as [[[|]|e1] d1]; simpl.
    + destruct (is_muted _ _) as [[m|e2] d2]; simpl.
      * destruct (get_volume _ _) as [[v|e3] d3]; simpl.
        -- destruct (get_source_and_state _ _) as [[[src is_on]|e4] d4]; simpl.
           ++ discriminate.
           ++ intros [= ->]. rewrite He. auto.
        -- intros [= ->]. rewrite He. auto.
      * intros [= ->]. rewrite He. auto.
    + discriminate.
    + intros [= ->]. rewrite He. auto.
Qed.

(** C10, as amended: [async_update] propagates no exception deriving from
    [Exception]: when the first poll call to fail raises one, the method
    returns.  When that call raises an exception whose class derives from
    [BaseException] alone, the handler does not catch it and the method
    raises that same exception.  Nothing else is ever raised, and when no
    poll call fails the method returns. *)
Theorem async_update_propagates_no_Exception (w : world D) :
  (forall e,
      fst (async_update w) = Raises e ->
      isinstance_Exception e = false /\ poll_failure w = Some e)
  /\ ((forall e, poll_failure w = Some e -> isinstance_Exception e = true) ->
      fst (async_update w) = Returns tt)
  /\ (forall e,
        poll_failure w = Some e ->
        isinstance_Exception e = true ->
        fst (async_update w) = Returns tt)
  /\ (forall e,
        poll_failure w = Some e ->
        isinstance_Exception e = false ->
        fst (async_update w) = Raises e)
  /\ (poll_failure w = None -> fst (async_update w) = Returns tt).
Proof.
  rewrite async_update_spec. unfold poll_failure, handled. simpl.
  destruct (is_online _ _) as [[[|]|e1] d1]; simpl;
    [ destruct (is_muted _ _) as [[m|e2] d2]; simpl;
      [ destruct (get_volume _ _) as [[v|e3] d3]; simpl;
        [ destruct (get_source_and_state _ _) as [[[src is_on]|e4] d4]; simpl
        | ]
      | ]
    | | ].
  all: try match goal with
         | |- context [isinstance_Exception ?x] =>
             destruct (isinstance_Exception x) eqn:?
         end; simpl.
  all: repeat apply conj.
  all: first
         [ reflexivity
         | discriminate
         | intros e0 [= <-]; intros; first [reflexivity | congruence | auto]
         | intros H0; specialize (H0 _ eq_refl); congruence ].
Qed.

End Update.

(** ** The registry of configured speakers *)

Section Registry.
Variable KEF_LS50_SOURCES : list string.

(** One setup, from the registry's point of view: a key that is present
    stops it, a key that is absent is added with its entity. *)
Lemma async_setup_platform_spec (c : Config) (h : HomeAssistant) :
  async_setup_platform KEF_LS50_SOURCES c h =
    let unique_id := unique_id_of (CONF_HOST c) (CONF_PORT c) in
    let media_player :=
      KefMediaPlayer_init (CONF_NAME c) (CONF_HOST c) (CONF_PORT c)
        (CONF_MAX_VOLUME c) (CONF_VOLUME_STEP c) KEF_LS50_SOURCES in
    match registry_of h !! unique_id with
    | Some _ => h
    | None =>
        {| data := <[DATA_KEF := <[unique_id := media_player]> (registry_of h)]>
                     (data h);
           added_entities := added_entities h ++ [media_player] |}
    end.
Proof.
  unfold async_setup_platform, registry_of. destruct h as [dat added]. simpl.
  destruct (dat !! DATA_KEF) as [reg|] eqn:E; simpl.
  - rewrite E. simpl. destruct (reg !! _); reflexivity.
  - rewrite lookup_insert_eq. simpl. rewrite !lookup_empty.
    rewrite insert_insert_eq. reflexivity.
Qed.

Lemma setup_registered (c : Config) (h : HomeAssistant) :
  is_Some (registry_of h !! unique_id_of (CONF_HOST c) (CONF_PORT c)) ->
  async_setup_platform KEF_LS50_SOURCES c h = h.
Proof.
  intros [e He]. rewrite async_setup_platform_spec. simpl. rewrite He.
  reflexivity.
Qed.

Lemma registry_after_setup (c : Config) (h : HomeAssistant) :
  registry_of h !! unique_id_of (CONF_HOST c) (CONF_PORT c) = None ->
  registry_of (async_setup_platform KEF_LS50_SOURCES c h)
  = <[unique_id_of (CONF_HOST c) (CONF_PORT c) :=
        KefMediaPlayer_init (CONF_NAME c) (CONF_HOST c) (CONF_PORT c)
          (CONF_MAX_VOLUME c) (CONF_VOLUME_STEP c) KEF_LS50_SOURCES]>
      (registry_of h)
  /\ added_entities (async_setup_platform KEF_LS50_SOURCES c h)
     = added_entities h
       ++ [KefMediaPlayer_init (CONF_NAME c) (CONF_HOST c) (CONF_PORT c)
             (CONF_MAX_VOLUME c) (CONF_VOLUME_STEP c) KEF_LS50_SOURCES].
Proof.
  intros Hnone. rewrite async_setup_platform_spec. simpl. rewrite Hnone.
  unfold registry_of at 1. simpl. rewrite lookup_insert_eq. auto.
Qed.

Lemma setup_registers (c : Config) (h : HomeAssistant) :
  is_Some (registry_of (async_setup_platform KEF_LS50_SOURCES c h)
             !! unique_id_of (CONF_HOST c) (CONF_PORT c)).
Proof.
  destruct (registry_of h !! unique_id_of (CONF_HOST c) (CONF_PORT c))
    as [e|] eqn:E.
  - rewrite setup_registered by eauto. eauto.
  - destruct (registry_after_setup c h E) as [-> _].
    rewrite lookup_insert_eq. eauto.
Qed.

Lemma setup_keeps_keys (c : Config) (h : HomeAssistant) (k : string) :
  is_Some (registry_of h !! k) ->
  is_Some (registry_of (async_setup_platform KEF_LS50_SOURCES c h) !! k).
Proof.
  intros Hk.
  destruct (registry_of h !! unique_id_of (CONF_HOST c) (CONF_PORT c))
    as [e|] eqn:E.
  - rewrite setup_registered by eauto. exact Hk.
  - destruct (registry_after_setup c h E) as [-> _].
    rewrite lookup_insert. case_decide; [eauto | exact Hk].
Qed.

Lemma setup_all_keeps_keys (cs : list Config) (h : HomeAssistant) (k : string) :
  is_Some (registry_of h !! k) ->
  is_Some (registry_of (setup_all KEF_LS50_SOURCES cs h) !! k).
Proof.
  revert h. induction cs as [|c cs IH]; intros h Hk; simpl; [exact Hk|].
  apply IH, setup_keeps_keys, Hk.
Qed.

Lemma setup_consistent (c : Config) (h : HomeAssistant) :
  registry_consistent h ->
  registry_consistent (async_setup_platform KEF_LS50_SOURCES c h).
Proof.
  intros [Hnd Hreg].
  destruct (registry_of h !! unique_id_of (CONF_HOST c) (CONF_PORT c))
    as [e|] eqn:E.
  - rewrite setup_registered by eauto. split; assumption.
  - destruct (registry_after_setup c h E) as [Hr Ha]. split.
    + rewrite Ha, fmap_app. simpl. apply NoDup_app. split; [exact Hnd|].
      split; [| apply NoDup_singleton].
      intros k Hk Hk'. apply list_elem_of_singleton in Hk'. subst k.
      apply list_elem_of_fmap in Hk as (e & He & Hin).
      apply Hreg in Hin as [x Hx]. unfold entity_id at 1 in He. simpl in He.
      rewrite He in E. congruence.
    + intros e. rewrite Ha, Hr, elem_of_app, list_elem_of_singleton.
      intros [Hin | ->].
      * rewrite lookup_insert. case_decide; [eauto | apply Hreg, Hin].
      * unfold entity_id at 1. simpl. rewrite lookup_insert_eq. eauto.
Qed.

Lemma setup_all_consistent (cs : list Config) (h : HomeAssistant) :
  registry_consistent h ->
  registry_consistent (setup_all KEF_LS50_SOURCES cs h).
Proof.
  revert h. induction cs as [|c cs IH]; intros h Hh; simpl; [exact Hh|].
  apply IH, setup_consistent, Hh.
Qed.

(** C7: of two setups with the same host and port, the first leaves the key
    [host:port] in the registry, the key is still there after any setups in
    between, and the second changes nothing: neither the registry nor the
    entities handed to [async_add_entities].  Counted from an empty registry,
    no two entities added by any run of setups share a key. *)
Theorem setup_same_host_port_once
    (c1 c2 : Config) (between : list Config) (h : HomeAssistant) :
  CONF_HOST c2 = CONF_HOST c1 ->
  CONF_PORT c2 = CONF_PORT c1 ->
  let unique_id := unique_id_of (CONF_HOST c1) (CONF_PORT c1) in
  let h1 := async_setup_platform KEF_LS50_SOURCES c1 h in
  let h2 := setup_all KEF_LS50_SOURCES between h1 in
  is_Some (registry_of h1 !! unique_id)
  /\ is_Some (registry_of h2 !! unique_id)
  /\ async_setup_platform KEF_LS50_SOURCES c2 h2 = h2
  /\ (forall cs,
        NoDup (entity_id <$>
                 added_entities (setup_all KEF_LS50_SOURCES cs empty_hass))).
Proof.
  intros Hhost Hport unique_id h1 h2.
  assert (H1 : is_Some (registry_of h1 !! unique_id)) by apply setup_registers.
  assert (H2 : is_Some (registry_of h2 !! unique_id))
    by (apply setup_all_keeps_keys, H1).
  repeat split; [exact H1 | exact H2 | |].
  - apply setup_registered. rewrite Hhost, Hport. exact H2.
  - intros cs. apply (setup_all_consistent cs empty_hass).
    split; [apply NoDup_nil_2 | intros e He; inversion He].
Qed.

End Registry.

(** ** Runs on the scripted speaker *)

(** C1 at 0.4, below the default ceiling of 0.5. *)
Lemma set_volume_level_caches_request_run :
  volume_level
    (self (snd (async_set_volume_level 0.4%float (world_of playing healthy))))
  = Some (py_min 0.4%float DEFAULT_MAX_VOLUME).
Proof.
  destruct (set_volume_level_caches_request 0.4%float (world_of playing healthy))
    as [_ Hmin]; [reflexivity |].
  apply Hmin. reflexivity.
Defined.

(** C1 as stated fails: 0.8 lies in [0, 1], the speaker accepts the
    command, and [volume_level] is 0.8, not [min(0.8, 0.5)]. *)
Lemma set_volume_level_above_maximum :
  float_between 0 1 0.8%float = true
  /\ fst (async_set_volume_level 0.8%float (world_of playing healthy)) = Returns tt
  /\ volume_level
       (self (snd (async_set_volume_level 0.8%float (world_of playing healthy))))
     = Some 0.8%float
  /\ volume_level
       (self (snd (async_set_volume_level 0.8%float (world_of playing healthy))))
     <> Some (py_min 0.8%float (maximum_volume (_speaker playing))).
Proof.
  split; [reflexivity|]. split; [reflexivity|]. split; [reflexivity|].
  vm_compute. intros H.
  assert (E : Some 0.8%float = Some 0.5%float -> 0.8%float = 0.5%float)
    by (intros E; exact (f_equal (default 0.8%float) E)).
  apply E in H. revert H.
  apply float_neq_by_eqb; reflexivity.
Qed.

(** C2 at a failing input: the entity plays from Wifi, Bluetooth is in its
    source list and [set_source] is refused.  The exception reaches the
    caller, and the [source] property has become Bluetooth. *)
Example select_source_failure_overwrites_source :
  py_in "Bluetooth" (source_list playing) = true
  /\ source playing = Some "Wifi"
  /\ fst (set_source (_speaker playing) "Bluetooth" refusing)
     = Raises connection_refused
  /\ fst (async_select_source "Bluetooth" (world_of playing refusing))
     = Raises connection_refused
  /\ source (self (snd (async_select_source "Bluetooth" (world_of playing refusing))))
     = Some "Bluetooth".
Proof. repeat split; reflexivity. Qed.

(** C3 at the string "Unknown". *)
Lemma async_select_source_unknown_run :
  async_select_source "Unknown" (world_of playing healthy)
  = (Raises (ValueError "Unknown input source: Unknown."), world_of playing healthy).
Proof.
  destruct (async_select_source_unknown "Unknown" (world_of playing healthy))
    as [Hraise _]; [| exact Hraise].
  apply (bool_decide_unpack _). vm_compute. exact I.
Defined.

(** C4 as stated fails: [is_online] raises, the update returns, and the
    entity still shows on, Wifi, 0.3, unmuted. *)
Lemma async_update_failure_not_degraded :
  fst (is_online (_speaker playing) (failing connection_refused))
  = Raises connection_refused
  /\ fst (async_update (world_of playing (failing connection_refused))) = Returns tt
  /\ self (snd (async_update (world_of playing (failing connection_refused))))
     = playing
  /\ state playing = Some STATE_ON
  /\ ~ degraded
       (self (snd (async_update (world_of playing (failing connection_refused))))).
Proof.
  repeat split; try reflexivity.
  intros [[Hoff | Hnone] _]; vm_compute in *; discriminate.
Qed.

(** C4, as amended, at the same input. *)
Lemma async_update_failure_keeps_attributes_run :
  fst (async_update (world_of playing (failing connection_refused))) = Returns tt
  /\ self (snd (async_update (world_of playing (failing connection_refused))))
     = playing.
Proof.
  destruct (async_update_failure_keeps_attributes
              (world_of playing (failing connection_refused)) connection_refused)
    as [Hfirst _]; [reflexivity |].
  apply (Hfirst (failing connection_refused)). reflexivity.
Defined.

(** C5 on a speaker that is offline. *)
Lemma async_update_offline_run :
  fst (async_update (world_of playing offline)) = Returns tt
  /\ state (self (snd (async_update (world_of playing offline)))) = Some STATE_OFF
  /\ volume_level (self (snd (async_update (world_of playing offline)))) = None
  /\ is_volume_muted (self (snd (async_update (world_of playing offline)))) = None
  /\ source (self (snd (async_update (world_of playing offline)))) = None
  /\ calls (snd (async_update (world_of playing offline))) = [Call_is_online].
Proof.
  apply (async_update_offline (world_of playing offline)). reflexivity.
Defined.

(** C6 on a speaker that answers every poll: it reports Opt and powered off. *)
Lemma async_update_call_order_run :
  fst (async_update (world_of playing healthy)) = Returns tt
  /\ state (self (snd (async_update (world_of playing healthy)))) = Some STATE_OFF
  /\ source (self (snd (async_update (world_of playing healthy)))) = Some "Opt"
  /\ calls (snd (async_update (world_of playing healthy)))
     = [Call_is_online; Call_is_muted; Call_get_volume; Call_get_source_and_state].
Proof.
  destruct (async_update_call_order (world_of playing healthy)) as [_ Hon].
  apply (Hon healthy false healthy 0.25%float healthy "Opt" false healthy);
    reflexivity.
Defined.

(** C7 on the default configuration, set up twice. *)
Lemma setup_same_host_port_once_run :
  async_setup_platform sample_sources sample_config
    (async_setup_platform sample_sources sample_config empty_hass)
  = async_setup_platform sample_sources sample_config empty_hass.
Proof.
  destruct (setup_same_host_port_once sample_sources
              sample_config sample_config [] empty_hass)
    as (_ & _ & Hsame & _); [reflexivity | reflexivity |].
  exact Hsame.
Defined.

(** C9 on a speaker that accepts the commands: an entity shown as off is
    shown as on after [async_turn_off], one shown as on is shown as off
    after [async_turn_on]. *)
Lemma power_commands_write_opposite_state_run :
  state standby = Some STATE_OFF
  /\ fst (async_turn_off (world_of standby healthy)) = Returns tt
  /\ state (self (snd (async_turn_off (world_of standby healthy))))
     = Some STATE_ON
  /\ state playing = Some STATE_ON
  /\ fst (async_turn_on (world_of playing healthy)) = Returns tt
  /\ state (self (snd (async_turn_on (world_of playing healthy))))
     = Some STATE_OFF.
Proof.
  destruct (power_commands_write_opposite_state (world_of standby healthy))
    as (Hoff & _).
  destruct (power_commands_write_opposite_state (world_of playing healthy))
    as (_ & Hon & _).
  rewrite (Hoff healthy eq_refl), (Hon healthy eq_refl).
  repeat split; reflexivity.
Defined.

(** C10 as stated fails: a [KeyboardInterrupt] raised inside [is_online]
    passes [except Exception] and reaches the caller of [async_update]. *)
Lemma async_update_propagates_KeyboardInterrupt :
  fst (is_online (_speaker playing) (failing keyboard_interrupt))
  = Raises keyboard_interrupt
  /\ fst (async_update (world_of playing (failing keyboard_interrupt)))
     = Raises keyboard_interrupt.
Proof. split; reflexivity. Qed.

(** C10, as amended, on a speaker whose calls raise
    [ConnectionRefusedError], which is swallowed, and on one whose calls
    raise [CancelledError], which is not. *)
Lemma async_update_propagates_no_Exception_run :
  fst (async_update (world_of playing (failing connection_refused))) = Returns tt
  /\ fst (async_update (world_of playing (failing cancelled))) = Raises cancelled.
Proof.
  destruct (async_update_propagates_no_Exception
              (world_of playing (failing connection_refused)))
    as (_ & _ & Hret & _).
  destruct (async_update_propagates_no_Exception
              (world_of playing (failing cancelled)))
    as (_ & _ & _ & Hraise & _).
  split.
  - apply (Hret connection_refused); reflexivity.
  - apply (Hraise cancelled); reflexivity.
Defined.

(** ** More on the commands *)

Section MoreCommands.
Context {D : Type} `{api : AsyncKefApi D}.

(** X1: a command other than a selection of a listed source that ends in an
    exception leaves the entity exactly as it found it. *)
Theorem failed_command_leaves_entity (r : request) (w : world D) (e : exn) :
  r <> Update ->
  (forall s, r = SelectSource s -> s ∉ source_list (self w)) ->
  fst (serve r w) = Raises e ->
  self (snd (serve r w)) = self w.
Proof.
  intros Hupd Hsel.
  destruct r as [| | | | | v | [|] | s]; simpl serve; try congruence.
  8: { specialize (Hsel s eq_refl). apply py_in_not_elem_of in Hsel.
       unfold_method. rewrite Hsel. reflexivity. }
  all: unfold_method; simpl; split_outcomes; try discriminate; reflexivity.
Qed.


(** X3: a volume step caches the level the speaker answers and nothing
    else. *)
Theorem volume_step_caches_answer (w : world D) (v : float) :
  (fst (increase_volume (_speaker (self w)) (device w)) = Returns v ->
   fst (async_volume_up w) = Returns tt
   /\ cache (self (snd (async_volume_up w)))
      = (state (self w), is_volume_muted (self w), source (self w), Some v))
  /\ (fst (decrease_volume (_speaker (self w)) (device w)) = Returns v ->
      fst (async_volume_down w) = Returns tt
      /\ cache (self (snd (async_volume_down w)))
         = (state (self w), is_volume_muted (self w), source (self w), Some v)).
Proof.
  split; unfold_method; simpl; split_outcomes; intros [= ->]; auto.
Qed.

(** X4: [async_select_source] never touches state, mute flag or volume;
    for a listed source the speaker accepts, it returns and the source
    property is that source. *)
Theorem async_select_source_effect (s : string) (w : world D) :
  state (self (snd (async_select_source s w))) = state (self w)
  /\ is_volume_muted (self (snd (async_select_source s w)))
     = is_volume_muted (self w)
  /\ volume_level (self (snd (async_select_source s w))) = volume_level (self w)
  /\ (s ∈ source_list (self w) ->
      fst (set_source (_speaker (self w)) s (device w)) = Returns tt ->
      fst (async_select_source s w) = Returns tt
      /\ source (self (snd (async_select_source s w))) = Some s).
Proof.
  repeat apply conj.
  1-3: unfold_method; simpl; split_outcomes; reflexivity.
  intros Hin Hok. rewrite async_select_source_known by exact Hin.
  destruct (set_source _ _ _) as [r d]. simpl in *. auto.
Qed.

End MoreCommands.

(** ** More on the update cycle *)

Section MoreUpdate.
Context {D : Type} `{api : AsyncKefApi D}.

(** X5: a cycle in which no poll call raises settles the whole cache from
    the speaker alone: two entities with the same speaker, polling the same
    device, end with the same state, mute flag, source and volume, whatever
    each had cached before. *)
Theorem complete_poll_overwrites_cache (w1 w2 : world D) :
  device w1 = device w2 ->
  _speaker (self w1) = _speaker (self w2) ->
  poll_failure w1 = None ->
  fst (async_update w1) = Returns tt
  /\ fst (async_update w2) = Returns tt
  /\ cache (self (snd (async_update w1))) = cache (self (snd (async_update w2)))
  /\ device (snd (async_update w1)) = device (snd (async_update w2)).
Proof.
  intros Hdev Hsp. rewrite !async_update_spec. unfold poll_failure. simpl.
  rewrite Hdev, Hsp.
  split_outcomes; try discriminate; intros _; repeat split; reflexivity.
Qed.

(** X6: when the speaker is online and answers the three queries, the cache
    holds exactly the four answers. *)
Theorem async_update_refreshes_cache
    (w : world D) (d1 d2 d3 d4 : D) (m : bool) (v : float) (src : string)
    (is_on : bool) :
  is_online (_speaker (self w)) (device w) = (Returns true, d1) ->
  is_muted (_speaker (self w)) d1 = (Returns m, d2) ->
  get_volume (_speaker (self w)) d2 = (Returns v, d3) ->
  get_source_and_state (_speaker (self w)) d3 = (Returns (src, is_on), d4) ->
  cache (self (snd (async_update w)))
  = (Some (if is_on then STATE_ON else STATE_OFF), Some m, Some src, Some v)
  /\ device (snd (async_update w)) = d4.
Proof.
  intros H1 H2 H3 H4. rewrite async_update_spec. simpl.
  rewrite H1, H2, H3, H4. simpl. auto.
Qed.

End MoreUpdate.

(** ** The entity over any run of requests *)

Section LifetimeFacts.
Context {D : Type} `{api : AsyncKefApi D}.

Lemma serve_keeps_identity (r : request) (w : world D) :
  same_identity (self w) (self (snd (serve r w))).
Proof.
  unfold same_identity.
  destruct r as [| | | | | v | [|] | s]; simpl serve;
    [rewrite async_update_spec | unfold_method ..]; simpl;
    split_outcomes; unfold handled; split_outcomes; auto.
Qed.

Lemma serve_all_snoc (rs : list request) (r : request) (w : world D) :
  serve_all (rs ++ [r]) w = snd (serve r (serve_all rs w)).
Proof. unfold serve_all. rewrite foldl_app. reflexivity. Qed.

Lemma serve_all_same_identity (rs : list request) (w : world D) :
  same_identity (self w) (self (serve_all rs w)).
Proof.
  induction rs as [|r rs IH] using rev_ind.
  - repeat split.
  - rewrite serve_all_snoc.
    destruct IH as (Hn & Hl & Hs).
    destruct (serve_keeps_identity r (serve_all rs w)) as (Hn' & Hl' & Hs').
    repeat split; congruence.
Qed.

(** X7: whatever requests are served, in whatever order and with whatever
    outcomes, name, source list and speaker stay those of the start. *)
Theorem serve_all_keeps_identity (rs : list request) (w : world D) :
  name (self (serve_all rs w)) = name (self w)
  /\ source_list (self (serve_all rs w)) = source_list (self w)
  /\ _speaker (self (serve_all rs w)) = _speaker (self w).
Proof. exact (serve_all_same_identity rs w). Qed.

Lemma serve_keeps_state_known (r : request) (w : world D) :
  state (self w) = None \/ state (self w) = Some STATE_ON
    \/ state (self w) = Some STATE_OFF ->
  state (self (snd (serve r w))) = None
  \/ state (self (snd (serve r w))) = Some STATE_ON
  \/ state (self (snd (serve r w))) = Some STATE_OFF.
Proof.
  intros H.
  destruct r as [| | | | | v | [|] | s]; simpl serve;
    [rewrite async_update_spec | unfold_method ..]; simpl;
    split_outcomes; unfold handled; split_outcomes; auto.
  match goal with |- context [if ?b then _ else _] => destruct b end; auto.
Qed.

(** X8: the state of an entity that starts unknown, on or off is unknown,
    on or off after any run of requests: no other string is ever stored. *)
Theorem serve_all_state_known (rs : list request) (w : world D) :
  state (self w) = None \/ state (self w) = Some STATE_ON
    \/ state (self w) = Some STATE_OFF ->
  state (self (serve_all rs w)) = None
  \/ state (self (serve_all rs w)) = Some STATE_ON
  \/ state (self (serve_all rs w)) = Some STATE_OFF.
Proof.
  intros H. induction rs as [|r rs IH] using rev_ind; [exact H|].
  rewrite serve_all_snoc. apply serve_keeps_state_known, IH.
Qed.

Lemma serve_source_origin (r : request) (w : world D) (s : string) :
  source (self (snd (serve r w))) = Some s ->
  source (self w) = Some s
  \/ (r = SelectSource s /\ s ∈ source_list (self w))
  \/ (r = Update /\ polled_source w = Some s).
Proof.
  destruct r as [| | | | | v | [|] | s']; simpl serve.
  1: { rewrite async_update_spec. unfold polled_source, handled. simpl.
       destruct (is_online _ _) as [[[|]|?] ?]; simpl.
       - destruct (is_muted _ _) as [[?|?] ?]; simpl.
         + destruct (get_volume _ _) as [[?|?] ?]; simpl.
           * destruct (get_source_and_state _ _) as [[[src is_on]|?] d4];
               simpl.
             -- intros [= ->]. auto.
             -- split_outcomes; auto.
           * split_outcomes; auto.
         + split_outcomes; auto.
       - discriminate.
       - split_outcomes; auto. }
  8: { unfold_method. simpl. destruct (py_in s' _) eqn:E; simpl.
       - apply py_in_elem_of in E. split_outcomes; intros [= ->]; auto.
       - auto. }
  all: unfold_method; simpl; split_outcomes; auto.
Qed.

(** X9: where the source property comes from.  After any run of requests
    it is the source the entity started with, or a member of the source list
    that one of the requests selected, or the source that
    [get_source_and_state] returned in one of the run's updates: a rejected
    selection leaves no trace. *)
Theorem serve_all_source_accounted
    (rs : list request) (w : world D) (s : string) :
  source (self (serve_all rs w)) = Some s ->
  source (self w) = Some s
  \/ (SelectSource s ∈ rs /\ s ∈ source_list (self w))
  \/ (exists rs1 rs2,
        rs = rs1 ++ Update :: rs2
        /\ polled_source (serve_all rs1 w) = Some s).
Proof.
  induction rs as [|r rs IH] using rev_ind; [auto|].
  rewrite serve_all_snoc. intros Hs.
  apply serve_source_origin in Hs as [Hs | [[-> Hin] | [-> Hp]]].
  - destruct (IH Hs) as [H | [[Hsel Hin] | (rs1 & rs2 & -> & Hp)]].
    + auto.
    + right. left. split; [| exact Hin]. apply elem_of_app. auto.
    + right. right. exists rs1, (rs2 ++ [r]).
      split; [| exact Hp]. rewrite <- app_assoc. reflexivity.
  - right. left. split.
    + apply elem_of_app. right. apply list_elem_of_singleton. reflexivity.
    + destruct (serve_all_same_identity rs w) as (_ & Hl & _).
      rewrite <- Hl. exact Hin.
  - right. right. exists rs, []. auto.
Qed.

Lemma serve_call_budget (r : request) (w : world D) :
  calls w `prefix_of` calls (snd (serve r w))
  /\ length (calls (snd (serve r w))) <= length (calls w) + 4.
Proof.
  destruct r as [| | | | | v | [|] | s]; simpl serve;
    [rewrite async_update_spec | unfold_method ..]; simpl;
    split_outcomes; unfold handled; split_outcomes;
    (split; [ first [ reflexivity
                    | rewrite <- ?app_assoc; apply prefix_app_r; reflexivity ]
            | rewrite ?length_app; simpl; lia ]).
Qed.

(** X10: the entity only adds to the log of speaker calls, and a run of
    [n] requests adds at most [4 * n] calls. *)
Theorem serve_all_call_budget (rs : list request) (w : world D) :
  calls w `prefix_of` calls (serve_all rs w)
  /\ length (calls (serve_all rs w)) <= length (calls w) + 4 * length rs.
Proof.
  induction rs as [|r rs [IHp IHl]] using rev_ind.
  - simpl. split; [reflexivity | lia].
  - rewrite serve_all_snoc, length_app. simpl.
    destruct (serve_call_budget r (serve_all rs w)) as [Hp Hl].
    split; [etrans; eassumption | lia].
Qed.

End LifetimeFacts.

(** ** Keys never collide *)

Lemma char_in_app (c : Ascii.ascii) (s t : string) :
  char_in c (s +:+ t) = char_in c s || char_in c t.
Proof.
  induction s as [|a s IH]; simpl; [reflexivity|].
  rewrite IH, orb_assoc. reflexivity.
Qed.

(** A string is cut at its last colon in one way only. *)
Lemma last_colon_split (s1 s2 t1 t2 : string) :
  char_in ":"%char t1 = false ->
  char_in ":"%char t2 = false ->
  s1 +:+ ":" +:+ t1 = s2 +:+ ":" +:+ t2 ->
  s1 = s2 /\ t1 = t2.
Proof.
  intros Ht1 Ht2. revert s2.
  induction s1 as [|a s1 IH]; intros [|b s2].
  - change (String ":" t1 = String ":" t2 -> "" = "" /\ t1 = t2).
    intros [= ->]. auto.
  - change (String ":" t1 = String b (s2 +:+ ":" +:+ t2) ->
            "" = String b s2 /\ t1 = t2).
    intros [= <- ->]. rewrite char_in_app in Ht1. simpl in Ht1.
    rewrite orb_true_r in Ht1. discriminate.
  - change (String a (s1 +:+ ":" +:+ t1) = String ":" t2 ->
            String a s1 = "" /\ t1 = t2).
    intros [= -> <-]. rewrite char_in_app in Ht2. simpl in Ht2.
    rewrite orb_true_r in Ht2. discriminate.
  - change (String a (s1 +:+ ":" +:+ t1) = String b (s2 +:+ ":" +:+ t2) ->
            String a s1 = String b s2 /\ t1 = t2).
    intros [= -> H]. destruct (IH _ H) as [-> ->]. auto.
Qed.

Lemma pretty_N_char_no_colon (x : N) : Ascii.eqb ":"%char (pretty_N_char x) = false.
Proof. unfold pretty_N_char. repeat case_match; reflexivity. Qed.

Lemma pretty_N_go_no_colon (x : N) (s : string) :
  char_in ":"%char s = false -> char_in ":"%char (pretty_N_go x s) = false.
Proof.
  revert s. induction (N.lt_wf_0 x) as [x _ IH]; intros s Hs.
  assert (x = 0 \/ 0 < x)%N as [->|Hpos] by lia.
  - rewrite pretty_N_go_0. exact Hs.
  - rewrite pretty_N_go_step by exact Hpos. apply IH.
    + apply N.div_lt; [exact Hpos | reflexivity].
    + cbn [char_in]. rewrite pretty_N_char_no_colon. exact Hs.
Qed.

Lemma pretty_N_no_colon (x : N) : char_in ":"%char (pretty x) = false.
Proof.
  unfold pretty, pretty_N. case_decide; [reflexivity|].
  apply pretty_N_go_no_colon. reflexivity.
Qed.

(** A port number is written without a colon. *)
Lemma pretty_Z_no_colon (x : Z) : char_in ":"%char (pretty x) = false.
Proof.
  destruct x as [|p|p]; unfold pretty, pretty_Z.
  - reflexivity.
  - apply (pretty_N_no_colon (Npos p)).
  - rewrite char_in_app. simpl. apply (pretty_N_no_colon (Npos p)).
Qed.

Lemma unique_id_of_split (h1 h2 : string) (p1 p2 : Z) :
  unique_id_of h1 p1 = unique_id_of h2 p2 -> h1 = h2 /\ p1 = p2.
Proof.
  unfold unique_id_of. intros H.
  apply last_colon_split in H as [-> Hp]; auto using pretty_Z_no_colon.
  split; [reflexivity|]. apply (inj pretty) in Hp. exact Hp.
Qed.

(** X11: the key [host:port] determines host and port, for every host
    string (colons included) and every port: two different speakers never
    share a key. *)
Theorem unique_id_of_inj (h1 h2 : string) (p1 p2 : Z) :
  unique_id_of h1 p1 = unique_id_of h2 p2 <-> h1 = h2 /\ p1 = p2.
Proof.
  split; [apply unique_id_of_split | intros [-> ->]; reflexivity].
Qed.

(** ** More on the registry *)

Section MoreRegistry.
Variable KEF_LS50_SOURCES : list string.

Lemma entity_id_configured (c : Config) :
  entity_id (configured_entity KEF_LS50_SOURCES c) = config_id c.
Proof. reflexivity. Qed.

(** One setup in terms of [config_id] and [configured_entity]. *)
Lemma setup_step (c : Config) (h : HomeAssistant) :
  async_setup_platform KEF_LS50_SOURCES c h =
    match registry_of h !! config_id c with
    | Some _ => h
    | None =>
        {| data := <[DATA_KEF := <[config_id c :=
                                     configured_entity KEF_LS50_SOURCES c]>
                                   (registry_of h)]> (data h);
           added_entities :=
             added_entities h ++ [configured_entity KEF_LS50_SOURCES c] |}
    end.
Proof. apply async_setup_platform_spec. Qed.

Lemma registry_step (c : Config) (h : HomeAssistant) :
  registry_of (async_setup_platform KEF_LS50_SOURCES c h) =
    match registry_of h !! config_id c with
    | Some _ => registry_of h
    | None => <[config_id c := configured_entity KEF_LS50_SOURCES c]>
                (registry_of h)
    end.
Proof.
  rewrite setup_step. destruct (registry_of h !! config_id c); [reflexivity|].
  unfold registry_of at 1. simpl. rewrite lookup_insert_eq. reflexivity.
Qed.

Lemma added_step (c : Config) (h : HomeAssistant) :
  added_entities (async_setup_platform KEF_LS50_SOURCES c h) =
    match registry_of h !! config_id c with
    | Some _ => added_entities h
    | None => added_entities h ++ [configured_entity KEF_LS50_SOURCES c]
    end.
Proof.
  rewrite setup_step. destruct (registry_of h !! config_id c); reflexivity.
Qed.

(** X12: a setup whose key is not yet registered stores a new entity under
    [host:port] and hands that same entity to [async_add_entities].  The
    entity has nothing cached, carries the configured name and the platform's
    source list, and its speaker gets host, port, volume step and maximum
    volume each from its own configuration key. *)
Theorem setup_fresh_key (c : Config) (h : HomeAssistant) :
  registry_of h !! config_id c = None ->
  exists e,
    registry_of (async_setup_platform KEF_LS50_SOURCES c h) !! config_id c
    = Some e
    /\ added_entities (async_setup_platform KEF_LS50_SOURCES c h)
       = added_entities h ++ [e]
    /\ cache e = (None, None, None, None)
    /\ name e = CONF_NAME c
    /\ source_list e = KEF_LS50_SOURCES
    /\ host (_speaker e) = CONF_HOST c
    /\ port (_speaker e) = CONF_PORT c
    /\ volume_step (_speaker e) = CONF_VOLUME_STEP c
    /\ maximum_volume (_speaker e) = CONF_MAX_VOLUME c.
Proof.
  intros Hnone. exists (configured_entity KEF_LS50_SOURCES c).
  rewrite registry_step, added_step, Hnone, lookup_insert_eq.
  repeat split; reflexivity.
Qed.

Lemma setup_keeps_entries (c : Config) (h : HomeAssistant)
    (k : string) (e : KefMediaPlayer) :
  registry_of h !! k = Some e ->
  registry_of (async_setup_platform KEF_LS50_SOURCES c h) !! k = Some e.
Proof.
  intros Hk. rewrite registry_step.
  destruct (registry_of h !! config_id c) eqn:E; [exact Hk|].
  rewrite lookup_insert_ne; [exact Hk | congruence].
Qed.

Lemma setup_all_cons (c : Config) (cs : list Config) (h : HomeAssistant) :
  setup_all KEF_LS50_SOURCES (c :: cs) h
  = setup_all KEF_LS50_SOURCES cs (async_setup_platform KEF_LS50_SOURCES c h).
Proof. reflexivity. Qed.

Lemma setup_all_snoc (cs : list Config) (c : Config) (h : HomeAssistant) :
  setup_all KEF_LS50_SOURCES (cs ++ [c]) h
  = async_setup_platform KEF_LS50_SOURCES c (setup_all KEF_LS50_SOURCES cs h).
Proof. unfold setup_all. rewrite foldl_app. reflexivity. Qed.

(** X13: a registered speaker is never replaced or removed by later setups:
    the entity found under a key stays the one that was stored first,
    whatever name or volume settings a later configuration for the same
    host and port carries. *)
Theorem setup_all_keeps_entries (cs : list Config) (h : HomeAssistant)
    (k : string) (e : KefMediaPlayer) :
  registry_of h !! k = Some e ->
  registry_of (setup_all KEF_LS50_SOURCES cs h) !! k = Some e.
Proof.
  revert h. induction cs as [|c cs IH]; intros h Hk; [exact Hk|].
  rewrite setup_all_cons. apply IH, setup_keeps_entries, Hk.
Qed.

Lemma setup_frame (c : Config) (h : HomeAssistant) :
  (forall k, k <> DATA_KEF ->
     data (async_setup_platform KEF_LS50_SOURCES c h) !! k = data h !! k)
  /\ added_entities h
       `prefix_of` added_entities (async_setup_platform KEF_LS50_SOURCES c h).
Proof.
  split.
  - intros k Hk. unfold async_setup_platform.
    destruct (data h !! DATA_KEF) as [reg|] eqn:E; simpl.
    + rewrite E. simpl. destruct (reg !! _); simpl; [reflexivity|].
      rewrite lookup_insert_ne by congruence. reflexivity.
    + rewrite lookup_insert_eq. simpl. rewrite lookup_empty. simpl.
      rewrite !lookup_insert_ne by congruence. reflexivity.
  - rewrite added_step. destruct (registry_of h !! config_id c).
    + reflexivity.
    + apply prefix_app_r. reflexivity.
Qed.

(** X14: setups touch nothing of [hass.data] outside the entry [DATA_KEF],
    and never take back or reorder an entity already handed to
    [async_add_entities]. *)
Theorem setup_all_frame (cs : list Config) (h : HomeAssistant) :
  (forall k, k <> DATA_KEF ->
     data (setup_all KEF_LS50_SOURCES cs h) !! k = data h !! k)
  /\ added_entities h
       `prefix_of` added_entities (setup_all KEF_LS50_SOURCES cs h).
Proof.
  revert h. induction cs as [|c cs IH]; intros h; [split; reflexivity|].
  rewrite setup_all_cons.
  destruct (IH (async_setup_platform KEF_LS50_SOURCES c h)) as [Hd Ha].
  destruct (setup_frame c h) as [Hd' Ha']. split.
  - intros k Hk. rewrite Hd by exact Hk. apply Hd', Hk.
  - etrans; eassumption.
Qed.

Lemma setup_matches (c : Config) (h : HomeAssistant) :
  registry_matches h ->
  registry_matches (async_setup_platform KEF_LS50_SOURCES c h).
Proof.
  intros [Hiff Hsize]. unfold registry_matches.
  rewrite registry_step, added_step.
  destruct (registry_of h !! config_id c) as [e0|] eqn:E; [split; assumption|].
  split.
  - intros k e. rewrite lookup_insert, elem_of_app, list_elem_of_singleton.
    case_decide as Hk.
    + subst k. split.
      * intros [= <-]. split; [right; reflexivity | reflexivity].
      * intros [[Hin | ->] Hid]; [| reflexivity].
        assert (registry_of h !! config_id c = Some e) by (apply Hiff; auto).
        congruence.
    + rewrite Hiff. split.
      * intros [Hin Hid]. auto.
      * intros [[Hin | ->] Hid]; [auto |].
        rewrite entity_id_configured in Hid. congruence.
  - rewrite map_size_insert_None by exact E. rewrite length_app. simpl.
    lia.
Qed.

Lemma setup_all_matches (cs : list Config) (h : HomeAssistant) :
  registry_matches h -> registry_matches (setup_all KEF_LS50_SOURCES cs h).
Proof.
  revert h. induction cs as [|c cs IH]; intros h Hh; [exact Hh|].
  rewrite setup_all_cons. apply IH, setup_matches, Hh.
Qed.

Lemma empty_hass_matches : registry_matches empty_hass.
Proof.
  split; [| reflexivity].
  intros k e. unfold registry_of. simpl. rewrite !lookup_empty. simpl.
  rewrite lookup_empty. split; [discriminate | intros [H _]; inversion H].
Qed.

(** X15: starting from nothing, after any run of setups the registry holds
    exactly the entities handed to [async_add_entities], each under its own
    [host:port]; there are as many keys as entities. *)
Theorem registry_is_the_added_entities (cs : list Config) :
  (forall k e,
      registry_of (setup_all KEF_LS50_SOURCES cs empty_hass) !! k = Some e
      <-> e ∈ added_entities (setup_all KEF_LS50_SOURCES cs empty_hass)
          /\ entity_id e = k)
  /\ size (registry_of (setup_all KEF_LS50_SOURCES cs empty_hass))
     = length (added_entities (setup_all KEF_LS50_SOURCES cs empty_hass)).
Proof. exact (setup_all_matches cs empty_hass empty_hass_matches). Qed.

Lemma setup_all_keys (cs : list Config) (h : HomeAssistant) (k : string) :
  is_Some (registry_of (setup_all KEF_LS50_SOURCES cs h) !! k)
  <-> is_Some (registry_of h !! k) \/ k ∈ config_id <$> cs.
Proof.
  induction cs as [|c cs IH] using rev_ind.
  - simpl. split; [auto | intros [H | H]; [exact H | inversion H]].
  - rewrite setup_all_snoc, registry_step, fmap_app, elem_of_app. simpl.
    rewrite list_elem_of_singleton.
    destruct (registry_of (setup_all KEF_LS50_SOURCES cs h) !! config_id c)
      as [e0|] eqn:E.
    + rewrite IH. split; [tauto |].
      intros [H | [H | ->]]; [tauto | tauto |].
      apply IH. eauto.
    + rewrite lookup_insert. case_decide as Hk.
      * subst k. split; [auto | eauto].
      * rewrite IH. split; [tauto |].
        intros [H | [H | ->]]; [tauto | tauto | congruence].
Qed.

(** X16: starting from nothing, a run of setups adds one entity for each
    distinct [host:port] among the configurations, and none besides. *)
Theorem one_entity_per_configured_key (cs : list Config) :
  NoDup (entity_id <$> added_entities (setup_all KEF_LS50_SOURCES cs empty_hass))
  /\ forall k,
       k ∈ entity_id <$> added_entities (setup_all KEF_LS50_SOURCES cs empty_hass)
       <-> k ∈ config_id <$> cs.
Proof.
  split.
  - apply (setup_all_consistent KEF_LS50_SOURCES cs empty_hass).
    split; [apply NoDup_nil_2 | intros e He; inversion He].
  - intros k.
    destruct (setup_all_matches cs empty_hass empty_hass_matches) as [Hiff _].
    rewrite list_elem_of_fmap. split.
    + intros (e & -> & Hin).
      assert (Hk : is_Some (registry_of (setup_all KEF_LS50_SOURCES cs empty_hass)
                              !! entity_id e)) by (eexists; apply Hiff; eauto).
      apply setup_all_keys in Hk as [[x Hx] | Hk]; [| exact Hk].
      unfold registry_of in Hx. simpl in Hx. rewrite lookup_empty in Hx.
      simpl in Hx. rewrite lookup_empty in Hx. discriminate.
    + intros Hk.
      assert (Hs : is_Some (registry_of (setup_all KEF_LS50_SOURCES cs empty_hass)
                              !! k)) by (apply setup_all_keys; auto).
      destruct Hs as [e He]. apply Hiff in He as [Hin Hid]. eauto.
Qed.

(** X17: two configurations that differ in host or in port are two
    speakers: set up one after the other on an empty registry, both are
    added, in that order. *)
Theorem distinct_speakers_both_added (c1 c2 : Config) :
  CONF_HOST c1 <> CONF_HOST c2 \/ CONF_PORT c1 <> CONF_PORT c2 ->
  added_entities (setup_all KEF_LS50_SOURCES [c1; c2] empty_hass)
  = [configured_entity KEF_LS50_SOURCES c1; configured_entity KEF_LS50_SOURCES c2].
Proof.
  intros Hdiff.
  assert (Hne : config_id c1 <> config_id c2).
  { intros Heq. apply unique_id_of_split in Heq as [Hh Hp].
    destruct Hdiff; contradiction. }
  rewrite !setup_all_cons. simpl.
  rewrite added_step, registry_step, added_step.
  assert (E : registry_of empty_hass !! config_id c1 = None).
  { unfold registry_of. simpl. rewrite lookup_empty. simpl. apply lookup_empty. }
  rewrite E. rewrite lookup_insert_ne by exact Hne.
  assert (E2 : registry_of empty_hass !! config_id c2 = None).
  { unfold registry_of. simpl. rewrite lookup_empty. simpl. apply lookup_empty. }
  rewrite E2. reflexivity.
Qed.

End MoreRegistry.

(** ** More runs on the scripted speaker *)

(** X1 on a refused volume command. *)
Lemma failed_command_leaves_entity_run :
  self (snd (serve (SetVolumeLevel 0.4%float) (world_of playing refusing)))
  = playing.
Proof.
  apply (failed_command_leaves_entity (SetVolumeLevel 0.4%float)
           (world_of playing refusing) connection_refused).
  - discriminate.
  - discriminate.
  - reflexivity.
Defined.

(** X3 on a speaker that answers 0.3 to a step. *)
Lemma volume_step_caches_answer_run :
  cache (self (snd (async_volume_up (world_of fresh healthy))))
  = (None, None, None, Some 0.3%float).
Proof.
  destruct (volume_step_caches_answer (world_of fresh healthy) 0.3%float)
    as [Hup _].
  apply Hup. reflexivity.
Defined.

(** X4 on an accepted selection of Usb. *)
Lemma async_select_source_effect_run :
  fst (async_select_source "Usb" (world_of playing healthy)) = Returns tt
  /\ source (self (snd (async_select_source "Usb" (world_of playing healthy))))
     = Some "Usb".
Proof.
  destruct (async_select_source_effect "Usb" (world_of playing healthy))
    as (_ & _ & _ & Hok).
  apply Hok; [| reflexivity].
  apply (bool_decide_unpack _). vm_compute. exact I.
Defined.

(** X5 on a fresh entity and one that was playing. *)
Lemma complete_poll_overwrites_cache_run :
  cache (self (snd (async_update (world_of fresh healthy))))
  = cache (self (snd (async_update (world_of playing healthy)))).
Proof.
  destruct (complete_poll_overwrites_cache
              (world_of fresh healthy) (world_of playing healthy))
    as (_ & _ & Hcache & _); [reflexivity | reflexivity | reflexivity |].
  exact Hcache.
Defined.

(** X6 on the healthy speaker. *)
Lemma async_update_refreshes_cache_run :
  cache (self (snd (async_update (world_of playing healthy))))
  = (Some STATE_OFF, Some false, Some "Opt", Some 0.25%float).
Proof.
  destruct (async_update_refreshes_cache (world_of playing healthy)
              healthy healthy healthy healthy false 0.25%float "Opt" false)
    as [Hcache _]; [reflexivity | reflexivity | reflexivity | reflexivity |].
  exact Hcache.
Defined.

(** X8 on a fresh entity served a command, an update and a selection. *)
Lemma serve_all_state_known_run :
  state (self (serve_all [TurnOff; Update; SelectSource "Usb"]
                 (world_of fresh healthy))) = None
  \/ state (self (serve_all [TurnOff; Update; SelectSource "Usb"]
                    (world_of fresh healthy))) = Some STATE_ON
  \/ state (self (serve_all [TurnOff; Update; SelectSource "Usb"]
                    (world_of fresh healthy))) = Some STATE_OFF.
Proof.
  apply (serve_all_state_known [TurnOff; Update; SelectSource "Usb"]
           (world_of fresh healthy)).
  left. reflexivity.
Defined.

(** X9 on a fresh entity served a rejected selection, an update that
    reports Opt, and an accepted selection of Usb: the source is Usb, which
    the entity did not start with and no update reported. *)
Lemma serve_all_source_accounted_run :
  (SelectSource "Usb" ∈ [SelectSource "Unknown"; Update; SelectSource "Usb"]
   /\ "Usb" ∈ source_list fresh)
  \/ (exists rs1 rs2,
        [SelectSource "Unknown"; Update; SelectSource "Usb"]
        = rs1 ++ Update :: rs2
        /\ polled_source (serve_all rs1 (world_of fresh healthy)) = Some "Usb").
Proof.
  destruct (serve_all_source_accounted
              [SelectSource "Unknown"; Update; SelectSource "Usb"]
              (world_of fresh healthy) "Usb") as [Hstart | Hrest].
  - reflexivity.
  - discriminate Hstart.
  - exact Hrest.
Defined.

(** X12 on the default configuration and an empty registry. *)
Lemma setup_fresh_key_run :
  exists e,
    registry_of (async_setup_platform sample_sources sample_config empty_hass)
      !! config_id sample_config = Some e
    /\ added_entities (async_setup_platform sample_sources sample_config empty_hass)
       = [e]
    /\ maximum_volume (_speaker e) = DEFAULT_MAX_VOLUME
    /\ volume_step (_speaker e) = DEFAULT_VOLUME_STEP.
Proof.
  destruct (setup_fresh_key sample_sources sample_config empty_hass)
    as (e & Hreg & Hadd & _ & _ & _ & _ & _ & Hstep & Hmax); [reflexivity |].
  exists e. auto.
Defined.

(** X13: the first configuration of a speaker stays, whatever comes later. *)
Lemma setup_all_keeps_entries_run :
  registry_of
    (setup_all sample_sources [renamed_config; other_config]
       (async_setup_platform sample_sources sample_config empty_hass))
    !! config_id sample_config
  = Some fresh.
Proof.
  apply (setup_all_keeps_entries sample_sources [renamed_config; other_config]).
  reflexivity.
Defined.

(** X17 on two speakers at different hosts. *)
Lemma distinct_speakers_both_added_run :
  added_entities (setup_all sample_sources [sample_config; other_config] empty_hass)
  = [configured_entity sample_sources sample_config;
     configured_entity sample_sources other_config].
Proof.
  apply (distinct_speakers_both_added sample_sources sample_config other_config).
  left. discriminate.
Defined.
